(** * hikari.net.http_client: the request executor of [HTTPClient]

    A shallow embedding of [HTTPClient.__init__], [HTTPClient._request] and
    [HTTPClient._handle_bad_response] (src/hikari/net/http_client.py), and the
    properties of the retry loop: what is fed to the rate limiters, which
    responses are retried, which ones are raised, and what is returned.

    The executor talks to collaborators that live in other modules
    ([hikari.net.ratelimits], [hikari.net.routes], [hikari.net.errors], the
    aiohttp transport).  Their calls are recorded, in program order, in a
    trace of events; what they answer is an input of the model. *)

From Stdlib Require Import ZArith QArith String Ascii List Bool Lia.
From stdpp Require Import base option gmap strings list pretty.

#[local] Open Scope Z_scope.
#[local] Open Scope string_scope.
#[local] Open Scope list_scope.

(** ** Python values *)

(** What [json.loads] produces.  Python's [None] is [JNull]; a Python [float]
    is idealised as a rational number. *)
#[warnings="-register-all"] Inductive JSON : Type :=
  | JNull
  | JBool (b : bool)
  | JInt (z : Z)
  | JFloat (q : Q)
  | JString (s : string)
  | JArray (l : list JSON)
  | JObject (m : gmap string JSON).

(** [routes.CompiledRoute].
    Modelled from the spec: the [routes] module is not among the sources; a
    compiled route is a resolved method and a resolved path, and
    [create_url] puts the path behind the base URL. *)
Record CompiledRoute : Type := mkRoute {
  method : string;
  compiled_path : string;
}.

Definition create_url (r : CompiledRoute) (base_url : string) : string :=
  base_url +:+ compiled_path r.

(** The exceptions that can leave the executor.  The HTTP errors are the
    classes of [hikari.net.errors], with the arguments they are raised with. *)
Inductive Exn : Type :=
  | TypeError
  | KeyError (key : string)
  | ValueError
  | OverflowError
  | RuntimeError (msg : string)
  | BadRequestHTTPError (route : CompiledRoute) (message : JSON) (code : Z)
  | UnauthorizedHTTPError (route : CompiledRoute) (message : JSON) (code : Z)
  | ForbiddenHTTPError (route : CompiledRoute) (message : JSON) (code : Z)
  | NotFoundHTTPError (route : CompiledRoute) (message : JSON) (code : Z)
  | ClientHTTPError (status_line : string) (route : CompiledRoute)
                    (message : JSON) (code : Z)
  | ServerHTTPError (reason : string) (route : CompiledRoute)
                    (message : JSON) (status : Z).

(** The builtins and the [ratelimits] module are not part of the sources:
    they are parameters of the development. *)
Class Builtins : Type := {
  (** [int(s)] and [float(s)] on a [str]; [None] is a [ValueError]. *)
  int_of_str : string -> option Z;
  float_of_str : string -> option Q;
  (** [datetime.datetime] with [fromtimestamp(_, tz=utc)] and
      [email.utils.parsedate_to_datetime]. *)
  datetime : Type;
  fromtimestamp : Q -> Exn + datetime;
  parsedate_to_datetime : string -> Exn + datetime;
  (** [bytes.decode()]. *)
  decode : string -> Exn + string;
}.

Class RateLimits : Type := {
  (** [ratelimits.ExponentialBackOff]: the state of the iterator, a fresh
      iterator, and [next(backoff)]; [None] is [asyncio.TimeoutError]. *)
  BackOff : Type;
  ExponentialBackOff : BackOff;
  backoff_next : BackOff -> option (Q * BackOff);
  (** [HTTPBucketRateLimiterManager.acquire]: the future to await and the
      hash of the bucket. *)
  Future : Type;
  bucket_acquire : CompiledRoute -> Future * string;
}.

Module Py.

(** [body[key]] for a [str] key. *)
Definition getitem (v : JSON) (key : string) : Exn + JSON :=
  match v with
  | JObject m =>
      match m !! key with
      | Some x => inr x
      | None => inl (KeyError key)
      end
  | _ => inl TypeError
  end.

(** [bool(v)], as an [if] tests it. *)
Definition truthy (v : JSON) : bool :=
  match v with
  | JNull => false
  | JBool b => b
  | JInt z => negb (Z.eqb z 0)
  | JFloat q => negb (Qeq_bool q 0)
  | JString s => negb (String.eqb s EmptyString)
  | JArray l => match l with [] => false | _ => true end
  | JObject m => negb (bool_decide (m = ∅))
  end.

Section Conversions.
Context `{Builtins}.

(** [float(v)]. *)
Definition float (v : JSON) : Exn + Q :=
  match v with
  | JInt z => inr (inject_Z z)
  | JFloat q => inr q
  | JBool b => inr (if b then 1%Q else 0%Q)
  | JString s =>
      match float_of_str s with
      | Some q => inr q
      | None => inl ValueError
      end
  | _ => inl TypeError
  end.

(** [int(v)]; a float is truncated towards zero. *)
Definition int (v : JSON) : Exn + Z :=
  match v with
  | JInt z => inr z
  | JFloat q => inr (Z.quot (Qnum q) (Z.pos (Qden q)))
  | JBool b => inr (if b then 1 else 0)
  | JString s =>
      match int_of_str s with
      | Some z => inr z
      | None => inl ValueError
      end
  | _ => inl TypeError
  end.
End Conversions.

(** [str.startswith] with a tuple of prefixes. *)
Definition startswith (s : string) (prefixes : list string) : bool :=
  existsb (fun p => String.prefix p s) prefixes.

(** [except (ValueError, KeyError)]. *)
Definition is_ValueError_or_KeyError (e : Exn) : bool :=
  match e with
  | ValueError | KeyError _ => true
  | _ => false
  end.

End Py.

(** ** The transport *)

(** aiohttp keeps the response headers in a case-insensitive multi-dict:
    a list of pairs, looked up by name without regard to case, first match
    first. *)
Definition lower_ascii (c : ascii) : ascii :=
  let n := nat_of_ascii c in
  if ((65 <=? n) && (n <=? 90))%nat then ascii_of_nat (n + 32) else c.

Fixpoint lower (s : string) : string :=
  match s with
  | EmptyString => EmptyString
  | String c s' => String (lower_ascii c) (lower s')
  end.

Definition Headers : Type := list (string * string).

Definition headers_find (h : Headers) (name : string) : option string :=
  snd <$> List.find (fun kv => String.eqb (lower (fst kv)) (lower name)) h.

(** [headers.get(name, default)] *)
Definition headers_get (h : Headers) (name default : string) : string :=
  match headers_find h name with
  | Some v => v
  | None => default
  end.

(** [headers[name]] *)
Definition headers_getitem (h : Headers) (name : string) : Exn + string :=
  match headers_find h name with
  | Some v => inr v
  | None => inl (KeyError name)
  end.

Record Response : Type := mkResponse {
  status : Z;
  reason_phrase : string;   (* [resp.reason] *)
  resp_headers : Headers;   (* [resp.headers] *)
  raw_body : string;
}.

(** A re-seekable resource: a buffer and the position of its cursor. *)
Record Resource : Type := mkResource {
  content : list Byte.byte;
  position : nat;
}.

Definition seek (r : Resource) (pos : nat) : Resource :=
  {| content := content r; position := pos |}.

(** What a reader gets from the resource, from its cursor on. *)
Definition remaining_bytes (r : Resource) : list Byte.byte :=
  drop (position r) (content r).

(** One round trip as the transport answers it: how many bytes it has read
    of each resource of the form body, and the response. *)
Record Exchange : Type := mkExchange {
  consumed : list nat;
  response : Response;
}.

Definition advance (r : Resource) (n : nat) : Resource :=
  seek r (Nat.min (position r + n) (length (content r))).

Fixpoint consume (rs : list Resource) (ns : list nat) : list Resource :=
  match rs, ns with
  | r :: rs', n :: ns' => advance r n :: consume rs' ns'
  | _, _ => rs
  end.

(** ** The client *)

Definition FormData : Type := list (string * string).

Record HTTPClient : Type := mkClient {
  base_url : string;
  json_deserialize : string -> Exn + JSON;
  token : option string;
}.

Definition _AUTHENTICATION_SCHEMES : list string := ["Bearer"; "Bot"].

(** [" or ".join(schemes)] *)
Fixpoint join (sep : string) (l : list string) : string :=
  match l with
  | [] => EmptyString
  | [x] => x
  | x :: l' => x +:+ sep +:+ join sep l'
  end.

(** [HTTPClient.__init__]: the limiters and the session are built by the
    collaborators; the token is checked and stored. *)
Definition __init__ (base_url : string)
    (json_deserialize : string -> Exn + JSON) (token : option string)
    : Exn + HTTPClient :=
  if match token with
     | Some t => negb (Py.startswith t _AUTHENTICATION_SCHEMES)
     | None => false
     end
  then
    let this_type := "HTTPClient" in
    let auth_schemes := join " or " _AUTHENTICATION_SCHEMES in
    inl (RuntimeError ("Any token passed to " +:+ this_type +:+
                       " should begin with " +:+ auth_schemes))
  else inr (mkClient base_url json_deserialize token).

(** The keyword arguments of [_request]. *)
Record RequestArgs : Type := mkArgs {
  headers : option (gmap string string);
  query : option (gmap string string);
  form_body : option FormData;
  json_body : option JSON;
  reason : option string;
  re_seekable_resources : list Resource;
}.

(** The headers of the outgoing request, lines 124 to 133. *)
Definition request_headers (self : HTTPClient) (args : RequestArgs)
    : gmap string string :=
  let h : gmap string string := {["X-RateLimit-Precision" := "millisecond"]} in
  let h := match token self with
           | Some t => <["Authorization" := t]> h
           | None => h
           end in
  let h := match reason args with
           | Some r => <["X-Audit-Log-Reason" := r]> h
           | None => h
           end in
  match headers args with
  | Some extra => extra ∪ h
  | None => h
  end.

(** ** Exceptions and state *)

#[global] Instance exn_ret : MRet (sum Exn) := fun _ x => inr x.
#[global] Instance exn_bind : MBind (sum Exn) := fun _ _ f m =>
  match m with
  | inl e => inl e
  | inr x => f x
  end.

Definition of_option {A : Type} (o : option A) (e : Exn) : Exn + A :=
  match o with
  | Some x => inr x
  | None => inl e
  end.

(** [try: body except (...): handler], for a block without side effects. *)
Definition try_except {A : Type} (body : Exn + A) (catches : Exn -> bool)
    (handler : Exn + A) : Exn + A :=
  match body with
  | inl e => if catches e then handler else inl e
  | inr x => inr x
  end.

(** ** The request executor *)

Section Executor.
Context `{Builtins} `{RateLimits}.

(** The calls the executor makes on its collaborators. *)
Inductive Event : Type :=
  | RatelimiterAcquire (route : CompiledRoute)
      (* [self.ratelimiter.acquire(compiled_route)] *)
  | Seek (index pos : nat)
      (* [resource.seek(pos)] on the resource of that index *)
  | GlobalAcquire
      (* [self.global_ratelimiter.acquire()] *)
  | Gather (future : Future)
      (* [await asyncio.gather(future, <the global acquire>)] *)
  | TransportRequest (method url : string) (hdrs : gmap string string)
      (json : option JSON) (params : option (gmap string string))
      (data : option FormData) (streams : list (list Byte.byte))
      (* [super()._request(...)]; [streams] is what each resource of the
         form body holds from its cursor on *)
  | UpdateRateLimits (route : CompiledRoute) (real_hash bucket : string)
      (remaining limit : Z) (now_date reset_date : datetime)
      (* [self.ratelimiter.update_rate_limits(...)] *)
  | Throttle (retry_after : Q)
      (* [self.global_ratelimiter.throttle(retry_after)] *)
  | Sleep (delay : Q).
      (* [await asyncio.sleep(next_sleep)] *)

(** The state one call of [_request] works on: the resources of its form
    body, its backoff iterator, and the calls made so far. *)
Record State : Type := mkState {
  resources : list Resource;
  backoff : BackOff;
  trace : list Event;
}.

Definition M (A : Type) : Type := State -> (Exn + A) * State.

#[global] Instance M_ret : MRet M := fun _ x st => (inr x, st).
#[global] Instance M_bind : MBind M := fun _ _ f m st =>
  match m st with
  | (inl e, st') => (inl e, st')
  | (inr x, st') => f x st'
  end.

Definition lift {A : Type} (r : Exn + A) : M A := fun st => (r, st).

Definition emit (e : Event) : M unit := fun st =>
  (inr tt, mkState (resources st) (backoff st) (trace st ++ [e])).

Definition get_resources : M (list Resource) := fun st =>
  (inr (resources st), st).

(** [for resource in re_seekable_resources: resource.seek(0)] *)
Definition seek_all : M unit := fun st =>
  (inr tt,
   mkState ((fun r => seek r 0) <$> resources st) (backoff st)
           (trace st ++ imap (fun i _ => Seek i 0) (resources st))).

(** The transport reads the resources while it sends. *)
Definition transport_reads (ns : list nat) : M unit := fun st =>
  (inr tt, mkState (consume (resources st) ns) (backoff st) (trace st)).

(** [_handle_bad_response]; the backoff it is given is the one of the
    state. *)
Definition _handle_bad_response (reason : string) (route : CompiledRoute)
    (message : JSON) (status : Z) : M unit := fun st =>
  match backoff_next (backoff st) with
  | Some (next_sleep, b) =>
      (inr tt, mkState (resources st) b (trace st ++ [Sleep next_sleep]))
  | None => (inl (ServerHTTPError reason route message status), st)
  end.

(** Lines 188 to 194: what is read from the headers of a response. *)
Record RateLimitHeaders : Type := mkRateLimitHeaders {
  limit : Z;
  remaining : Z;
  bucket : string;
  reset_date : datetime;
  now_date : datetime;
  content_type : string;
}.

Definition read_headers (resp : Response) : Exn + RateLimitHeaders :=
  let headers := resp_headers resp in
  limit ← of_option (int_of_str (headers_get headers "X-RateLimit-Limit" "1")) ValueError;
  remaining ← of_option (int_of_str (headers_get headers "X-RateLimit-Remaining" "1")) ValueError;
  let bucket := headers_get headers "X-RateLimit-Bucket" "None" in
  reset ← of_option (float_of_str (headers_get headers "X-RateLimit-Reset" "0")) ValueError;
  reset_date ← fromtimestamp reset;
  date ← headers_getitem headers "Date";
  now_date ← parsedate_to_datetime date;
  content_type ← headers_getitem headers "Content-Type";
  mret (mkRateLimitHeaders limit remaining bucket reset_date now_date content_type).

(** Lines 226 to 230. *)
Definition error_fields (body : JSON) : Exn + (JSON * Z) :=
  try_except
    (message ← Py.getitem body "message";
     c ← Py.getitem body "code";
     code ← Py.int c;
     mret (message, code))
    Py.is_ValueError_or_KeyError
    (mret (JString EmptyString, -1)).

(** How one turn of the loop ends. *)
Inductive Flow : Type :=
  | Continue
  | Return (body : JSON).

(** Lines 198 to 212, inside the [async with]: the body of the response,
    or [None] when the turn has ended with [continue]. *)
Definition read_body (self : HTTPClient) (compiled_route : CompiledRoute)
    (resp : Response) (content_type : string) : M (option JSON) :=
  let status := status resp in
  (* [if status == 204: body = None]: the next statement is an [if], not
     an [elif], and each of its branches that goes on binds [body] anew *)
  let body := if Z.eqb status 204 then Some JNull else None in
  if String.eqb content_type "application/json" then
    body ← lift (json_deserialize self (raw_body resp));
    mret (Some body)
  else if String.eqb content_type "text/plain" || String.eqb content_type "text/html" then
    text ← lift (decode (raw_body resp));
    _handle_bad_response
      ("Received unexpected response of type " +:+ content_type)
      compiled_route (JString text) status;;
    mret None
  else
    let body := JNull in
    mret (Some body).

(** Lines 218 to 248: the status decides. *)
Definition classify (compiled_route : CompiledRoute) (resp : Response)
    (body : JSON) : M Flow :=
  let status := status resp in
  if Z.eqb status 429 then
    global ← lift (Py.getitem body "global");
    (if Py.truthy global then
       v ← lift (Py.getitem body "retry_after");
       ms ← lift (Py.float v);
       let retry_after := (ms / 1000)%Q in
       emit (Throttle retry_after)
     else mret tt);;
    mret Continue
  else if Z.leb 400 status then
    '(message, code) ← lift (error_fields body);
    if Z.eqb status 400 then
      lift (inl (BadRequestHTTPError compiled_route message code))
    else if Z.eqb status 401 then
      lift (inl (UnauthorizedHTTPError compiled_route message code))
    else if Z.eqb status 403 then
      lift (inl (ForbiddenHTTPError compiled_route message code))
    else if Z.eqb status 404 then
      lift (inl (NotFoundHTTPError compiled_route message code))
    else if Z.ltb status 500 then
      lift (inl (ClientHTTPError (pretty status +:+ ": " +:+ reason_phrase resp)
                                 compiled_route message code))
    else
      _handle_bad_response "Received a server error response"
        compiled_route message status;;
      mret Continue
  else
    mret (Return body).

(** Lines 175 to 248: from the response to the end of the turn. *)
Definition interpret (self : HTTPClient) (compiled_route : CompiledRoute)
    (real_hash : string) (resp : Response) : M Flow :=
  hd ← lift (read_headers resp);
  body ← read_body self compiled_route resp (content_type hd);
  match body with
  | None => mret Continue
  | Some body =>
      emit (UpdateRateLimits compiled_route real_hash (bucket hd)
              (remaining hd) (limit hd) (now_date hd) (reset_date hd));;
      classify compiled_route resp body
  end.

(** Lines 138 to 174: the turn up to the transport call.  The log lines
    and the UUID that tags them have no part in the flow and are left
    out. *)
Definition send (self : HTTPClient) (compiled_route : CompiledRoute)
    (args : RequestArgs) (request_headers : gmap string string)
    (future : Future) : M unit :=
  seek_all;;
  emit GlobalAcquire;;
  emit (Gather future);;
  rs ← get_resources;
  emit (TransportRequest (method compiled_route)
          (create_url compiled_route (base_url self))
          request_headers (json_body args) (query args) (form_body args)
          (remaining_bytes <$> rs)).

(** What a call of [_request] has come to once the transport has answered
    the exchanges of a script. *)
Inductive Result : Type :=
  | Returned (body : JSON)
  | Raised (e : Exn)
  | AwaitingResponse.

(** [while True:], one turn by exchange. *)
Fixpoint request_loop (self : HTTPClient) (compiled_route : CompiledRoute)
    (args : RequestArgs) (request_headers : gmap string string)
    (future : Future) (real_hash : string)
    (script : list Exchange) (st : State) : Result * State :=
  match send self compiled_route args request_headers future st with
  | (inl e, st) => (Raised e, st)
  | (inr _, st) =>
      match script with
      | [] => (AwaitingResponse, st)
      | x :: script' =>
          match (transport_reads (consumed x);;
                 interpret self compiled_route real_hash (response x)) st with
          | (inl e, st) => (Raised e, st)
          | (inr (Return body), st) => (Returned body, st)
          | (inr Continue, st) =>
              request_loop self compiled_route args request_headers
                future real_hash script' st
          end
      end
  end.

(** [HTTPClient._request], against the answers of the transport. *)
Definition _request (self : HTTPClient) (compiled_route : CompiledRoute)
    (args : RequestArgs) (script : list Exchange) : Result * State :=
  let '(future, real_hash) := bucket_acquire compiled_route in
  let request_headers := request_headers self args in
  let backoff := ExponentialBackOff in
  request_loop self compiled_route args request_headers future real_hash
    script
    (mkState (re_seekable_resources args) backoff
             [RatelimiterAcquire compiled_route]).

End Executor.

(** ** The states of a run *)

Section Runs.
Context `{Builtins} `{RateLimits}.

(** The state with more calls on the trace. *)
Definition record (evs : list Event) (st : State) : State :=
  mkState (resources st) (backoff st) (trace st ++ evs).

(** The calls that open a turn of the loop, for resources of the given
    contents: every resource is rewound, both limiters are awaited, and
    the request goes to the transport with every resource whole. *)
Definition attempt_events (self : HTTPClient) (route : CompiledRoute)
    (args : RequestArgs) (hdrs : gmap string string) (future : Future)
    (contents : list (list Byte.byte)) : list Event :=
  imap (fun i _ => Seek i 0) contents ++
  [GlobalAcquire; Gather future;
   TransportRequest (method route) (create_url route (base_url self)) hdrs
     (json_body args) (query args) (form_body args) contents].

(** The state once the request of a turn has gone out. *)
Definition sent (self : HTTPClient) (route : CompiledRoute)
    (args : RequestArgs) (hdrs : gmap string string) (future : Future)
    (st : State) : State :=
  mkState ((fun r => seek r 0) <$> resources st) (backoff st)
    (trace st ++
     attempt_events self route args hdrs future (content <$> resources st)).

(** The state once the transport has answered it. *)
Definition answered (self : HTTPClient) (route : CompiledRoute)
    (args : RequestArgs) (hdrs : gmap string string) (future : Future)
    (x : Exchange) (st : State) : State :=
  let st' := sent self route args hdrs future st in
  mkState (consume (resources st') (consumed x)) (backoff st') (trace st').

(** The update a response with these headers is answered with. *)
Definition update_of (route : CompiledRoute) (real_hash : string)
    (hd : RateLimitHeaders) : Event :=
  UpdateRateLimits route real_hash (bucket hd) (remaining hd) (limit hd)
    (now_date hd) (reset_date hd).

Definition is_update (e : Event) : bool :=
  match e with
  | UpdateRateLimits _ _ _ _ _ _ _ => true
  | _ => false
  end.

Definition is_sleep (e : Event) : bool :=
  match e with
  | Sleep _ => true
  | _ => false
  end.


Definition is_transport_request (e : Event) : bool :=
  match e with
  | TransportRequest _ _ _ _ _ _ _ => true
  | _ => false
  end.

(** The calls that follow a response: an update of the bucket, a throttle
    of the global limiter, a sleep. *)
Definition after_response (e : Event) : bool :=
  match e with
  | UpdateRateLimits _ _ _ _ _ _ _ | Throttle _ | Sleep _ => true
  | _ => false
  end.

(** The delays slept, in order. *)
Definition slept (evs : list Event) : list Q :=
  omap (fun e => match e with Sleep d => Some d | _ => None end) evs.

(** [draws b ds b']: [ds] are the next delays of the iterator [b], which
    is left as [b']. *)
Fixpoint draws (b : BackOff) (ds : list Q) (b' : BackOff) : Prop :=
  match ds with
  | [] => b' = b
  | d :: ds' =>
      exists b1, backoff_next b = Some (d, b1) /\ draws b1 ds' b'
  end.

(** The error a client-error status is raised as, lines 232 to 241. *)
Definition client_error (resp : Response) (route : CompiledRoute)
    (message : JSON) (code : Z) : Exn :=
  match status resp with
  | 400 => BadRequestHTTPError route message code
  | 401 => UnauthorizedHTTPError route message code
  | 403 => ForbiddenHTTPError route message code
  | 404 => NotFoundHTTPError route message code
  | s => ClientHTTPError (pretty s +:+ ": " +:+ reason_phrase resp)
           route message code
  end.

(** [extends st st']: from [st] to [st'] the resources are untouched, the
    trace has grown by calls that follow a response, and the backoff has
    moved by the delays slept among them. *)
Definition extends (st st' : State) : Prop :=
  exists evs,
    trace st' = trace st ++ evs
    /\ Forall (fun e => after_response e = true) evs
    /\ resources st' = resources st
    /\ draws (backoff st) (slept evs) (backoff st').

(** A computation that only ever extends the state. *)
Definition steady {A : Type} (m : M A) : Prop :=
  forall st, extends st (m st).2.

(** The trace of turns that open with the calls [opening] and go on with
    the calls of [tails], one turn by element. *)
Definition attempts (opening : list Event) (tails : list (list Event))
    : list Event :=
  concat ((fun tail => opening ++ tail) <$> tails).

End Runs.

(** ** More on the states of a run *)

Section Budget.
Context `{Builtins} `{RateLimits}.

Definition is_throttle (e : Event) : bool :=
  match e with
  | Throttle _ => true
  | _ => false
  end.

(** The calls that may stand between a response of status [s] and the end
    of its turn. *)
Definition turn_calls (s : Z) (evs : list Event) : Prop :=
  match evs with
  | [] => True
  | [Sleep _] => True
  | [UpdateRateLimits _ _ _ _ _ _ _] => True
  | [UpdateRateLimits _ _ _ _ _ _ _; Sleep _] => 500 <= s
  | [UpdateRateLimits _ _ _ _ _ _ _; Throttle _] => s = 429
  | _ => False
  end.

(** How many responses of a script are rate-limit rejections. *)
Definition rejections (script : list Exchange) : nat :=
  length (List.filter (fun x => Z.eqb (status (response x)) 429) script).




(** What the executor itself puts under a header name, before the headers
    of the caller are laid over it. *)
Definition own_header (self : HTTPClient) (args : RequestArgs)
    (name : string) : option string :=
  if String.eqb name "X-Audit-Log-Reason" then reason args
  else if String.eqb name "Authorization" then token self
  else if String.eqb name "X-RateLimit-Precision" then Some "millisecond"
  else None.

Definition is_object (v : JSON) : bool :=
  match v with
  | JObject _ => true
  | _ => false
  end.

End Budget.

(** ** A concrete instance

    The parameters instantiated, to run the executor on examples: decimal
    integers for the numbers, seconds since the epoch for the dates, a
    backoff of three doubling delays, and a deserializer that knows the
    bodies of the examples. *)

Module Demo.

Fixpoint find_char (c : ascii) (s : string) (i : Z) : option Z :=
  match s with
  | EmptyString => None
  | String d s' => if Ascii.eqb c d then Some i else find_char c s' (i + 1)
  end.

Definition digit (c : ascii) : option Z := find_char c "0123456789" 0.

Fixpoint digits (s : string) (acc : Z) : option Z :=
  match s with
  | EmptyString => Some acc
  | String c s' =>
      match digit c with
      | Some d => digits s' (10 * acc + d)
      | None => None
      end
  end.

Definition parse_int (s : string) : option Z :=
  match s with
  | EmptyString => None
  | String c s' =>
      if Ascii.eqb c "-" then
        match s' with
        | EmptyString => None
        | _ => Z.opp <$> digits s' 0
        end
      else digits s 0
  end.

Definition parsedate (s : string) : Exn + Q :=
  if String.eqb s "Thu, 01 Jan 1970 00:00:10 GMT" then inr 10%Q
  else inl ValueError.

#[local] Instance builtins : Builtins := {|
  int_of_str := parse_int;
  float_of_str := fun s => inject_Z <$> parse_int s;
  datetime := Q;
  fromtimestamp := fun q => inr q;
  parsedate_to_datetime := parsedate;
  decode := fun s => inr s;
|}.

#[local] Instance ratelimits : RateLimits := {|
  BackOff := nat;
  ExponentialBackOff := 0%nat;
  backoff_next := fun n =>
    if (n <? 3)%nat then Some (inject_Z (2 ^ Z.of_nat n), S n) else None;
  Future := nat;
  bucket_acquire := fun route => (0%nat, method route +:+ " " +:+ compiled_path route);
|}.

Definition quoted (s : string) : string :=
  String (ascii_of_nat 34) s +:+ String (ascii_of_nat 34) EmptyString.

(** [{"global": true, "retry_after": 1500}] *)
Definition global_limit_text : string :=
  "{" +:+ quoted "global" +:+ ": true, " +:+ quoted "retry_after" +:+ ": 1500}".
Definition global_limit_json : JSON :=
  JObject (<["global" := JBool true]> (<["retry_after" := JInt 1500]> ∅)).

(** [{"global": false, "retry_after": 250}] *)
Definition bucket_limit_text : string :=
  "{" +:+ quoted "global" +:+ ": false, " +:+ quoted "retry_after" +:+ ": 250}".
Definition bucket_limit_json : JSON :=
  JObject (<["global" := JBool false]> (<["retry_after" := JInt 250]> ∅)).

(** [{"message": "Unknown Channel", "code": 10003}] *)
Definition unknown_channel_text : string :=
  "{" +:+ quoted "message" +:+ ": " +:+ quoted "Unknown Channel" +:+ ", "
      +:+ quoted "code" +:+ ": 10003}".
Definition unknown_channel_json : JSON :=
  JObject (<["message" := JString "Unknown Channel"]> (<["code" := JInt 10003]> ∅)).

(** [{"message": "internal"}] *)
Definition internal_error_text : string :=
  "{" +:+ quoted "message" +:+ ": " +:+ quoted "internal" +:+ "}".
Definition internal_error_json : JSON :=
  JObject (<["message" := JString "internal"]> ∅).

(** [{"id": 42}] *)
Definition channel_text : string := "{" +:+ quoted "id" +:+ ": 42}".
Definition channel_json : JSON := JObject (<["id" := JInt 42]> ∅).

Definition loads (s : string) : Exn + JSON :=
  if String.eqb s global_limit_text then inr global_limit_json
  else if String.eqb s bucket_limit_text then inr bucket_limit_json
  else if String.eqb s unknown_channel_text then inr unknown_channel_json
  else if String.eqb s internal_error_text then inr internal_error_json
  else if String.eqb s channel_text then inr channel_json
  else inl ValueError.

Definition client : HTTPClient :=
  mkClient "https://discordapp.com/api/v6" loads (Some "Bot abc").

Definition route : CompiledRoute := mkRoute "PATCH" "/channels/42".

Definition no_args : RequestArgs := mkArgs None None None None None [].

(** A request with one attachment of three bytes. *)
Definition attachment : Resource :=
  mkResource [Byte.x68; Byte.x69; Byte.x21] 0.
Definition upload_args : RequestArgs :=
  mkArgs None None (Some [("file0", "hi.txt")]) None None [attachment].

(** A response with a date, a content type and a body. *)
Definition reply (status : Z) (phrase content_type body : string) : Exchange :=
  mkExchange []
    (mkResponse status phrase
       [("Date", "Thu, 01 Jan 1970 00:00:10 GMT");
        ("Content-Type", content_type)]
       body).

Definition hdrs : gmap string string := request_headers client no_args.

Definition real_hash : string := "PATCH /channels/42".

Definition future : Future := 0%nat.

(** The state [_request] enters its loop with, without resources. *)
Definition start : State := mkState [] 0%nat [RatelimiterAcquire route].

(** What is read from the headers of a [reply]. *)
Definition headers_of (content_type : string) : RateLimitHeaders :=
  mkRateLimitHeaders 1 1 "None" 0%Q 10%Q content_type.

Definition ok : Exchange := reply 200 "OK" "application/json" channel_text.
Definition ok_in_text : Exchange := reply 200 "OK" "text/plain" "pong".
Definition bad_gateway_page : Exchange :=
  reply 502 "Bad Gateway" "text/html; charset=utf-8" "<html>bad gateway</html>".
Definition no_content_json : Exchange :=
  reply 204 "No Content" "application/json" EmptyString.
Definition no_content_text : Exchange :=
  reply 204 "No Content" "text/html" EmptyString.
Definition internal_error : Exchange :=
  mkExchange [2%nat]
    (response (reply 500 "Internal Server Error" "application/json"
                 internal_error_text)).

(** The loop, the state behind an exchange and the whole call, for the
    client and the route above. *)
Definition loop (script : list Exchange) (st : State) : Result * State :=
  request_loop client route no_args hdrs future real_hash script st.

Definition after (x : Exchange) (st : State) : State :=
  answered client route no_args hdrs future x st.

Definition run (script : list Exchange) : Result * State :=
  _request client route no_args script.

Definition upload (script : list Exchange) : Result * State :=
  _request client route upload_args script.

(** The request of [run], the one of [upload], and the update that
    answers a [reply]. *)
Definition request : Event :=
  TransportRequest "PATCH" "https://discordapp.com/api/v6/channels/42" hdrs
    None None None [].

Definition upload_request : Event :=
  TransportRequest "PATCH" "https://discordapp.com/api/v6/channels/42" hdrs
    None None (Some [("file0", "hi.txt")]) [[Byte.x68; Byte.x69; Byte.x21]].

Definition update (content_type : string) : Event :=
  update_of route real_hash (headers_of content_type).

End Demo.

(** ** Further responses for the examples *)

Module Cases.
#[local] Existing Instances Demo.builtins Demo.ratelimits.

(** [[1, 2]] *)
Definition pair_text : string := "[1, 2]".
Definition pair_json : JSON := JArray [JInt 1; JInt 2].

(** [{"global": true}] *)
Definition global_only_text : string :=
  "{" +:+ Demo.quoted "global" +:+ ": true}".
Definition global_only_json : JSON :=
  JObject (<["global" := JBool true]> ∅).

(** A deserializer that knows the two bodies above besides those of
    [Demo.loads]. *)
Definition loads (s : string) : Exn + JSON :=
  if String.eqb s pair_text then inr pair_json
  else if String.eqb s global_only_text then inr global_only_json
  else Demo.loads s.

Definition client : HTTPClient :=
  mkClient "https://discordapp.com/api/v6" loads (Some "Bot abc").

(** A response with the given headers and nothing else. *)
Definition bare (status : Z) (phrase : string) (h : Headers) (body : string)
    : Exchange :=
  mkExchange [] (mkResponse status phrase h body).

Definition undated : Exchange :=
  bare 200 "OK" [("Content-Type", "application/json")] Demo.channel_text.
Definition untyped : Exchange :=
  bare 200 "OK" [("date", "Thu, 01 Jan 1970 00:00:10 GMT")] Demo.channel_text.

Definition moved : Exchange :=
  Demo.reply 302 "Found" "application/json" Demo.channel_text.
Definition garbled : Exchange :=
  Demo.reply 200 "OK" "application/json" "{oops".
Definition limited_without_scope : Exchange :=
  Demo.reply 429 "Too Many Requests" "application/json" Demo.channel_text.
Definition limited_without_delay : Exchange :=
  Demo.reply 429 "Too Many Requests" "application/json" global_only_text.
Definition bad_request_list : Exchange :=
  Demo.reply 400 "Bad Request" "application/json" pair_text.
Definition not_found_image : Exchange :=
  Demo.reply 404 "Not Found" "image/png" "PNG".

(** The attachment of [Demo.upload_args], read up to its second byte. *)
Definition attachment_in_use : Resource :=
  mkResource [Byte.x68; Byte.x69; Byte.x21] 2.

End Cases.

(** ** One turn of the loop *)

Section Turn.
Context `{Builtins} `{RateLimits}.
Context (self : HTTPClient) (route : CompiledRoute) (args : RequestArgs)
        (hdrs : gmap string string) (future : Future) (real_hash : string).

Lemma imap_const_fmap {A B C : Type} (f : nat -> C) (g : A -> B) (l : list A) :
  imap (fun i _ => f i) (g <$> l) = imap (fun i _ => f i) l.
Proof.
  revert f. induction l as [|a l IH]; intros f; simpl; [done|].
  f_equal. apply (IH (f ∘ S)).
Qed.

Lemma send_eq st :
  send self route args hdrs future st
  = (inr tt, sent self route args hdrs future st).
Proof.
  unfold send, sent, attempt_events, seek_all, emit, get_resources, mbind, M_bind.
  simpl. f_equal. f_equal.
  rewrite <- !app_assoc. simpl. rewrite imap_const_fmap.
  assert (Hc : remaining_bytes ∘ (λ r : Resource, seek r 0) <$> resources st
               = content <$> resources st).
  { apply list_fmap_ext. intros ? [c p] ?. reflexivity. }
  rewrite <- list_fmap_compose, Hc. reflexivity.
Qed.

Lemma request_loop_nil st :
  request_loop self route args hdrs future real_hash [] st
  = (AwaitingResponse, sent self route args hdrs future st).
Proof. cbn [request_loop]. rewrite send_eq. reflexivity. Qed.

Lemma request_loop_cons x script st :
  request_loop self route args hdrs future real_hash (x :: script) st
  = match interpret self route real_hash (response x)
            (answered self route args hdrs future x st) with
    | (inl e, st') => (Raised e, st')
    | (inr (Return body), st') => (Returned body, st')
    | (inr Continue, st') =>
        request_loop self route args hdrs future real_hash script st'
    end.
Proof. cbn [request_loop]. rewrite send_eq. reflexivity. Qed.

(** A response with a JSON body: the update, then the status. *)
Lemma interpret_json resp hd body st :
  read_headers resp = inr hd ->
  content_type hd = "application/json" ->
  json_deserialize self (raw_body resp) = inr body ->
  interpret self route real_hash resp st
  = classify route resp body (record [update_of route real_hash hd] st).
Proof.
  intros Hhd Hct Hbody.
  unfold interpret, read_body, lift, mbind, M_bind, mret, M_ret.
  rewrite Hhd, Hct, Hbody. reflexivity.
Qed.

(** A response of another type than JSON and text: no body. *)
Lemma interpret_other resp hd st :
  read_headers resp = inr hd ->
  String.eqb (content_type hd) "application/json" = false ->
  String.eqb (content_type hd) "text/plain" = false ->
  String.eqb (content_type hd) "text/html" = false ->
  interpret self route real_hash resp st
  = classify route resp JNull (record [update_of route real_hash hd] st).
Proof.
  intros Hhd H1 H2 H3.
  unfold interpret, read_body, lift, mbind, M_bind, mret, M_ret.
  rewrite Hhd, H1, H2, H3. reflexivity.
Qed.

(** A response of type text: the backoff, and no update. *)
Lemma interpret_text resp hd text st :
  read_headers resp = inr hd ->
  String.eqb (content_type hd) "text/plain"
    || String.eqb (content_type hd) "text/html" = true ->
  decode (raw_body resp) = inr text ->
  interpret self route real_hash resp st
  = match backoff_next (backoff st) with
    | Some (d, b) =>
        (inr Continue, mkState (resources st) b (trace st ++ [Sleep d]))
    | None =>
        (inl (ServerHTTPError
                ("Received unexpected response of type " +:+ content_type hd)
                route (JString text) (status resp)), st)
    end.
Proof.
  intros Hhd Hct Htext.
  assert (Hj : String.eqb (content_type hd) "application/json" = false).
  { destruct (String.eqb_spec (content_type hd) "application/json") as [E|]; [|done].
    rewrite E in Hct. discriminate. }
  unfold interpret, read_body, _handle_bad_response, lift, mbind, M_bind, mret, M_ret.
  rewrite Hhd, Hj, Hct, Htext.
  destruct (backoff_next (backoff st)) as [[d b]|]; reflexivity.
Qed.

End Turn.

(** ** Rate-limit rejections *)

Section RateLimited.
Context `{Builtins} `{RateLimits}.
Context (self : HTTPClient) (route : CompiledRoute) (args : RequestArgs)
        (hdrs : gmap string string) (future : Future) (real_hash : string).

(** What [classify] does with a 429 whose body is an object. *)
Lemma classify_429 resp m g st :
  status resp = 429 ->
  m !! "global" = Some g ->
  classify route resp (JObject m) st
  = if Py.truthy g then
      match m !! "retry_after" with
      | Some v =>
          match Py.float v with
          | inr ms => (inr Continue, record [Throttle (ms / 1000)] st)
          | inl e => (inl e, st)
          end
      | None => (inl (KeyError "retry_after"), st)
      end
    else (inr Continue, st).
Proof.
  intros Hs Hg. unfold classify, lift, emit, record, mbind, M_bind, mret, M_ret.
  rewrite Hs. simpl. rewrite Hg. destruct (Py.truthy g); [|reflexivity].
  destruct (m !! "retry_after") as [v|]; [|reflexivity].
  destruct (Py.float v); reflexivity.
Qed.




End RateLimited.

(** ** Content types and statuses *)

Section Outcomes.
Context `{Builtins} `{RateLimits}.
Context (self : HTTPClient) (route : CompiledRoute) (args : RequestArgs)
        (hdrs : gmap string string) (future : Future) (real_hash : string).

Lemma eqb_ne (s t : string) : s <> t -> String.eqb s t = false.
Proof. intros Hne. destruct (String.eqb_spec s t); [contradiction|done]. Qed.

(** C2, as the code has it: when the headers of a response have been
    read, and its type is not text/plain nor text/html, the first call
    after them is the update of the bucket limiter, with the remaining,
    limit, bucket, date and reset of the headers, and the status is looked
    at after it; a response of type text/plain or text/html leads to no
    update at all. *)
Theorem rate_limits_updated_unless_text resp st hd :
  read_headers resp = inr hd ->
  (forall body,
      content_type hd = "application/json" ->
      json_deserialize self (raw_body resp) = inr body ->
      interpret self route real_hash resp st
      = classify route resp body (record [update_of route real_hash hd] st))
  /\ (content_type hd <> "application/json" ->
      content_type hd <> "text/plain" ->
      content_type hd <> "text/html" ->
      interpret self route real_hash resp st
      = classify route resp JNull (record [update_of route real_hash hd] st))
  /\ (content_type hd = "text/plain" \/ content_type hd = "text/html" ->
      exists evs,
        trace (interpret self route real_hash resp st).2 = trace st ++ evs
        /\ Forall (fun e => is_update e = false) evs).
Proof.
  intros Hhd. split; [|split].
  - intros body Hct Hbody. apply interpret_json; assumption.
  - intros H1 H2 H3. apply interpret_other; auto using eqb_ne.
  - intros Hct.
    assert (Hct' : String.eqb (content_type hd) "text/plain"
                   || String.eqb (content_type hd) "text/html" = true)
      by (destruct Hct as [-> | ->]; reflexivity).
    destruct (decode (raw_body resp)) as [e|text] eqn:Htext.
    + exists []. split; [|constructor].
      assert (Hj : String.eqb (content_type hd) "application/json" = false)
        by (destruct Hct as [-> | ->]; reflexivity).
      unfold interpret, read_body, lift, mbind, M_bind.
      rewrite Hhd, Hj, Hct', Htext. simpl. by rewrite app_nil_r.
    + rewrite (interpret_text self route real_hash resp hd text st Hhd Hct' Htext).
      destruct (backoff_next (backoff st)) as [[d b]|].
      * exists [Sleep d]. split; [reflexivity|]. repeat constructor.
      * exists []. split; [simpl; by rewrite app_nil_r|constructor].
Qed.


(** What [classify] does with an error status other than 429. *)
Lemma classify_error resp body st :
  status resp <> 429 ->
  400 <= status resp ->
  classify route resp body st
  = match error_fields body with
    | inl e => (inl e, st)
    | inr (message, code) =>
        if Z.ltb (status resp) 500
        then (inl (client_error resp route message code), st)
        else (_handle_bad_response "Received a server error response"
                route message (status resp);; mret Continue) st
    end.
Proof.
  intros H429 H400. unfold classify, client_error, lift.
  replace (Z.eqb (status resp) 429) with false by (symmetry; lia).
  replace (Z.leb 400 (status resp)) with true by (symmetry; lia).
  unfold mbind at 1. unfold M_bind at 1.
  destruct (error_fields body) as [e|[message code]]; [reflexivity|].
  destruct (Z.eqb_spec (status resp) 400) as [->|]; [reflexivity|].
  destruct (Z.eqb_spec (status resp) 401) as [->|]; [reflexivity|].
  destruct (Z.eqb_spec (status resp) 403) as [->|]; [reflexivity|].
  destruct (Z.eqb_spec (status resp) 404) as [->|]; [reflexivity|].
  destruct (Z.ltb_spec (status resp) 500); [|reflexivity].
  destruct (status resp) as [|p|p]; try lia.
  do 9 (destruct p as [p|p|]; try reflexivity; try lia).
Qed.





End Outcomes.

(** ** The trace of a whole call *)

Section Trace.
Context `{Builtins} `{RateLimits}.

Lemma draws_app b ds1 b1 ds2 b2 :
  draws b ds1 b1 -> draws b1 ds2 b2 -> draws b (ds1 ++ ds2) b2.
Proof.
  revert b. induction ds1 as [|d ds1 IH]; simpl; intros b.
  - intros ->. done.
  - intros (b' & Hn & Hd) H2. exists b'. split; [done|]. by apply IH.
Qed.

Lemma extends_refl st : extends st st.
Proof.
  exists []. rewrite app_nil_r.
  split; [done|]. split; [constructor|]. split; done.
Qed.

Lemma extends_trans st1 st2 st3 :
  extends st1 st2 -> extends st2 st3 -> extends st1 st3.
Proof.
  intros (e1 & Ht1 & Hf1 & Hr1 & Hd1) (e2 & Ht2 & Hf2 & Hr2 & Hd2).
  exists (e1 ++ e2). split; [|split; [|split]].
  - rewrite Ht2, Ht1, app_assoc. done.
  - apply Forall_app. done.
  - congruence.
  - unfold slept. rewrite omap_app. eapply draws_app; eassumption.
Qed.

Lemma steady_ret {A : Type} (x : A) : steady (mret x).
Proof. intros st. apply extends_refl. Qed.

Lemma steady_lift {A : Type} (r : Exn + A) : steady (lift r).
Proof. intros st. apply extends_refl. Qed.

Lemma steady_bind {A B : Type} (m : M A) (k : A -> M B) :
  steady m -> (forall x, steady (k x)) -> steady (m ≫= k).
Proof.
  intros Hm Hk st. unfold mbind, M_bind. specialize (Hm st).
  destruct (m st) as [[e|x] st']; [exact Hm|].
  eapply extends_trans; [exact Hm|]. apply Hk.
Qed.

Lemma steady_emit e :
  after_response e = true -> is_sleep e = false -> steady (emit e).
Proof.
  intros Ha Hs st. exists [e]. split; [|split; [|split]].
  - done.
  - repeat constructor. exact Ha.
  - done.
  - destruct e; try discriminate; done.
Qed.

Lemma steady_handle_bad_response reason route message status :
  steady (_handle_bad_response reason route message status).
Proof.
  intros st. unfold _handle_bad_response.
  destruct (backoff_next (backoff st)) as [[d b]|] eqn:Hn.
  - exists [Sleep d]. split; [done|]. split; [repeat constructor|].
    split; [done|]. simpl. exists b. done.
  - apply extends_refl.
Qed.

Create HintDb steady.
#[local] Hint Resolve steady_ret steady_lift steady_emit
  steady_handle_bad_response : steady.

Ltac steady :=
  repeat first
    [ progress auto with steady
    | apply steady_bind; [|intros ?]
    | match goal with
      | |- steady (match ?x with _ => _ end) => destruct x
      | |- steady (if ?b then _ else _) => destruct b
      | |- steady (let '(_, _) := ?x in _) => destruct x
      end ].

Lemma steady_read_body self route resp content_type :
  steady (read_body self route resp content_type).
Proof. unfold read_body. steady. Qed.

Lemma steady_classify route resp body : steady (classify route resp body).
Proof. unfold classify. steady. Qed.

Lemma steady_interpret self route real_hash resp :
  steady (interpret self route real_hash resp).
Proof.
  unfold interpret.
  pose proof steady_read_body. pose proof steady_classify. steady.
Qed.

Lemma consume_content rs ns : content <$> consume rs ns = content <$> rs.
Proof.
  revert ns. induction rs as [|r rs IH]; intros [|n ns]; simpl; try done.
  by rewrite IH.
Qed.

Lemma answered_content self route args hdrs future x st :
  content <$> resources (answered self route args hdrs future x st)
  = content <$> resources st.
Proof.
  unfold answered, sent. simpl. rewrite consume_content.
  rewrite <- list_fmap_compose. apply list_fmap_ext. by intros ? [] ?.
Qed.

(** The trace of the loop: turn after turn, each one opening with the
    same calls; the delays slept are drawn, in order, from the one backoff
    of the call. *)
Lemma request_loop_shape self route args hdrs future real_hash script :
  forall st,
  exists tails,
    trace (request_loop self route args hdrs future real_hash script st).2
    = trace st
      ++ attempts (attempt_events self route args hdrs future
                     (content <$> resources st)) tails
    /\ Forall (Forall (fun e => after_response e = true)) tails
    /\ draws (backoff st) (slept (concat tails))
         (backoff (request_loop self route args hdrs future real_hash
                     script st).2)
    /\ (0 < length tails <= S (length script))%nat.
Proof.
  induction script as [|x script IH]; intros st.
  - rewrite request_loop_nil. exists [[]].
    split; [|split; [|split]].
    + unfold attempts. simpl. by rewrite !app_nil_r.
    + repeat constructor.
    + done.
    + simpl. lia.
  - rewrite request_loop_cons.
    destruct (steady_interpret self route real_hash (response x)
                (answered self route args hdrs future x st))
      as (evs & Ht & Hf & Hr & Hd).
    assert (Hone :
      forall st',
        trace st' = trace (answered self route args hdrs future x st) ++ evs ->
        trace st'
        = trace st
          ++ attempts (attempt_events self route args hdrs future
                         (content <$> resources st)) [evs]).
    { intros st' ->. unfold attempts. simpl.
      by rewrite app_nil_r, app_assoc. }
    destruct (interpret self route real_hash (response x)
                (answered self route args hdrs future x st))
      as [[e|[|body]] st'] eqn:Hi; cbn [snd] in Ht, Hr, Hd.
    + exists [evs]. simpl. rewrite app_nil_r.
      split; [by apply Hone|]. split; [by repeat constructor|].
      split; [done|lia].
    + destruct (IH st') as (tails & Ht' & Hf' & Hd' & Hl').
      exists (evs :: tails). split; [|split; [|split]].
      * rewrite Ht', Ht. rewrite Hr, answered_content.
        unfold attempts. simpl. by rewrite <- !app_assoc.
      * by constructor.
      * simpl. unfold slept. rewrite omap_app.
        eapply draws_app; eassumption.
      * simpl. lia.
    + exists [evs]. simpl. rewrite app_nil_r.
      split; [by apply Hone|]. split; [by repeat constructor|].
      split; [done|lia].
Qed.

(** Where an element with a property stands, behind a prefix without. *)
Lemma skip_prefix {A : Type} (Q : A -> bool) t r k b k2 :
  Forall (fun e => Q e = false) t ->
  Q b = true ->
  t ++ r = k ++ b :: k2 ->
  exists k', k = t ++ k' /\ r = k' ++ b :: k2.
Proof.
  intros Ht Hb. revert k. induction Ht as [|e t He Ht IH]; intros k Heq.
  - exists k. done.
  - destruct k as [|e' k]; simpl in Heq.
    + injection Heq as -> _. congruence.
    + injection Heq as -> Heq. destruct (IH _ Heq) as (k' & -> & ->).
      exists k'. done.
Qed.

Lemma attempts_hit (Q : Event -> bool) opening a tails pre e post :
  Forall (fun e => Q e = false) opening ->
  Q a = true ->
  Forall (Forall (fun e => Q e = false)) tails ->
  Q e = true ->
  attempts (opening ++ [a]) tails = pre ++ e :: post ->
  e = a /\ exists pre', pre = pre' ++ opening.
Proof.
  intros Ho Ha Htails He. revert pre.
  induction Htails as [|tail tails Htail Htails IH]; intros pre Heq.
  - destruct pre; discriminate.
  - unfold attempts in Heq. simpl in Heq.
    rewrite <- !app_assoc in Heq. simpl in Heq.
    destruct (skip_prefix Q _ _ _ _ _ Ho He Heq) as (k & -> & Hk).
    destruct k as [|a' k]; simpl in Hk.
    + injection Hk as Hae _. split; [done|]. exists [].
      by rewrite app_nil_r.
    + injection Hk as Hae Hk. subst a'.
      destruct (skip_prefix Q _ _ _ _ _ Htail He Hk) as (k' & -> & Hk').
      destruct (IH _ Hk') as (-> & pre' & ->).
      split; [done|]. exists (opening ++ a :: tail ++ pre').
      repeat (rewrite <- app_assoc; simpl). done.
Qed.

Lemma after_response_not_request evs :
  Forall (fun e => after_response e = true) evs ->
  Forall (fun e => is_transport_request e = false) evs.
Proof. intros Hf. eapply Forall_impl; [exact Hf|]. by intros []. Qed.


Lemma seeks_not_request {A : Type} (l : list A) :
  Forall (fun e => is_transport_request e = false)
    (imap (fun i _ => Seek i 0) l).
Proof.
  apply Forall_forall. intros e He.
  apply elem_of_lookup_imap in He as (i & y & -> & _). done.
Qed.

End Trace.

(** ** Acquisitions and rewinds *)

Section Attempts.
Context `{Builtins} `{RateLimits}.

Lemma filter_none (Q : Event -> bool) evs :
  Forall (fun e => Q e = false) evs -> List.filter Q evs = [].
Proof.
  induction 1 as [|e evs He _ IH]; simpl; [done|]. by rewrite He.
Qed.



Lemma seeks_without {A : Type} (Q : Event -> bool) (l : list A) :
  (forall i, Q (Seek i 0) = false) ->
  Forall (fun e => Q e = false) (imap (fun i _ => Seek i 0) l).
Proof.
  intros HQ. apply Forall_forall. intros e He.
  apply elem_of_lookup_imap in He as (i & y & -> & _). apply HQ.
Qed.

(** The trace of [_request] in turns: the loop of the shape above, behind
    the one acquisition of the bucket. *)
Lemma request_shape self route args script :
  exists tails,
    trace (_request self route args script).2
    = RatelimiterAcquire route
      :: attempts (attempt_events self route args (request_headers self args)
                     (bucket_acquire route).1
                     (content <$> re_seekable_resources args)) tails
    /\ Forall (Forall (fun e => after_response e = true)) tails
    /\ draws ExponentialBackOff (slept (concat tails))
         (backoff (_request self route args script).2)
    /\ (0 < length tails <= S (length script))%nat.
Proof.
  unfold _request. destruct (bucket_acquire route) as [future real_hash].
  apply (request_loop_shape self route args (request_headers self args)
           future real_hash script
           (mkState (re_seekable_resources args) ExponentialBackOff
              [RatelimiterAcquire route])).
Qed.


(** C8: wherever a request to the transport stands in the trace of
    [_request], as first attempt or as retry, it stands right behind a
    [seek(0)] on each resource and the await of the limiters, and it
    carries each resource whole, from its first byte on: the same bytes at
    every attempt. *)
Theorem resources_rewound_before_every_send self route args script pre e post :
  trace (_request self route args script).2 = pre ++ e :: post ->
  is_transport_request e = true ->
  e = TransportRequest (method route) (create_url route (base_url self))
        (request_headers self args) (json_body args) (query args)
        (form_body args) (content <$> re_seekable_resources args)
  /\ exists pre',
       pre = pre'
             ++ imap (fun i _ => Seek i 0) (re_seekable_resources args)
             ++ [GlobalAcquire; Gather (bucket_acquire route).1].
Proof.
  intros Htrace He.
  destruct (request_shape self route args script)
    as (tails & Ht & Hf & _ & _).
  rewrite Ht in Htrace. clear Ht.
  destruct pre as [|e0 pre]; simpl in Htrace.
  { injection Htrace as <- _. discriminate. }
  injection Htrace as <- Htrace.
  unfold attempt_events in Htrace.
  rewrite imap_const_fmap in Htrace.
  change [GlobalAcquire; Gather (bucket_acquire route).1; ?x]
    with ([GlobalAcquire; Gather (bucket_acquire route).1] ++ [x]) in Htrace.
  rewrite app_assoc in Htrace.
  apply (attempts_hit is_transport_request) in Htrace as (-> & pre' & ->).
  - split; [reflexivity|]. exists (RatelimiterAcquire route :: pre').
    reflexivity.
  - apply Forall_app. split; [by apply seeks_without|]. by repeat constructor.
  - reflexivity.
  - eapply Forall_impl; [exact Hf|]. apply after_response_not_request.
  - exact He.
Qed.
End Attempts.

(** ** Construction *)

(** C10: [HTTPClient.__init__] raises a [RuntimeError] exactly when it is
    given a token, one that starts neither with "Bearer" nor with "Bot";
    otherwise it makes the client with that token.  Without a token it makes
    a client whose requests carry no "Authorization" header but the one the
    caller may pass in [headers]. *)
Theorem token_checked_on_construction base_url loads token :
  ((exists msg, __init__ base_url loads token = inl (RuntimeError msg))
   <-> (exists t, token = Some t
                  /\ String.prefix "Bearer" t = false
                  /\ String.prefix "Bot" t = false))
  /\ (__init__ base_url loads token = inr (mkClient base_url loads token)
      <-> (token = None
           \/ exists t, token = Some t
                        /\ (String.prefix "Bearer" t = true
                            \/ String.prefix "Bot" t = true)))
  /\ __init__ base_url loads None = inr (mkClient base_url loads None)
  /\ (forall args,
        request_headers (mkClient base_url loads None) args !! "Authorization"
        = headers args ≫= (fun extra => extra !! "Authorization")).
Proof.
  split; [|split; [|split]].
  - unfold __init__, Py.startswith, _AUTHENTICATION_SCHEMES. simpl. split.
    + intros [msg Hinit]. destruct token as [t|]; [|discriminate].
      exists t. split; [done|].
      destruct (String.prefix "Bearer" t), (String.prefix "Bot" t);
        simpl in Hinit; try discriminate; done.
    + intros (t & -> & -> & ->). simpl. eexists. reflexivity.
  - unfold __init__, Py.startswith, _AUTHENTICATION_SCHEMES. simpl. split.
    + intros Hinit. destruct token as [t|]; [|by left]. right. exists t.
      split; [done|].
      destruct (String.prefix "Bearer" t), (String.prefix "Bot" t);
        simpl in Hinit; try discriminate; auto.
    + intros [-> | (t & -> & Hp)]; [done|].
      destruct Hp as [-> | ->]; [done|]. by rewrite orb_true_r.
  - reflexivity.
  - intros args. unfold request_headers. simpl.
    destruct (reason args) as [r|], (headers args) as [extra|]; simpl.
    + rewrite lookup_union, lookup_insert_ne, lookup_singleton_ne by done.
      by destruct (extra !! "Authorization").
    + by rewrite lookup_insert_ne, lookup_singleton_ne.
    + rewrite lookup_union, lookup_singleton_ne by done.
      by destruct (extra !! "Authorization").
    + by rewrite lookup_singleton_ne.
Qed.

(** ** What a turn may call *)

Section TurnCalls.
Context `{Builtins} `{RateLimits}.
Context (self : HTTPClient) (route : CompiledRoute) (args : RequestArgs)
        (hdrs : gmap string string) (future : Future) (real_hash : string).

Lemma interpret_turn_calls resp st :
  exists evs,
    trace (interpret self route real_hash resp st).2 = trace st ++ evs
    /\ turn_calls (status resp) evs.
Proof.
  unfold interpret, read_body, classify, _handle_bad_response, emit, lift,
    mbind, M_bind, mret, M_ret.
  repeat case_match; simplify_eq; simpl;
    repeat match goal with
    | H : (_, _) = (_, _) |- _ => injection H as <- <-
    end; simpl;
    first
      [ exists []; split; [by rewrite app_nil_r | exact I]
      | eexists; split; [by rewrite <- ?app_assoc | simpl; first [exact I | lia | done]] ].
Qed.
End TurnCalls.

(** ** Further properties of the executor *)

Section Further.
Context `{Builtins} `{RateLimits}.
Context (self : HTTPClient) (route : CompiledRoute) (args : RequestArgs)
        (hdrs : gmap string string) (future : Future) (real_hash : string).

(** X1: the outgoing headers.  Under every name the header of the caller
    comes first; where the caller gives none, the audit reason, the token
    and the millisecond precision stand under their names, and nothing
    stands under any other name. *)
Theorem request_headers_lookup (name : string) :
  request_headers self args !! name
  = match headers args ≫= (fun extra => extra !! name) with
    | Some v => Some v
    | None => own_header self args name
    end.
Proof.
  assert (Hown :
    (let h : gmap string string :=
       {["X-RateLimit-Precision" := "millisecond"]} in
     let h := match token self with
              | Some t => <["Authorization" := t]> h
              | None => h
              end in
     match reason args with
     | Some r => <["X-Audit-Log-Reason" := r]> h
     | None => h
     end) !! name = own_header self args name).
  { unfold own_header. simpl.
    destruct (String.eqb_spec name "X-Audit-Log-Reason") as [->|Hr].
    - destruct (reason args) as [r|]; [by rewrite lookup_insert_eq|].
      destruct (token self);
        [rewrite lookup_insert_ne by done|]; by rewrite lookup_singleton_ne.
    - destruct (String.eqb_spec name "Authorization") as [->|Ha].
      + destruct (reason args) as [r|];
          [rewrite lookup_insert_ne by done|];
          (destruct (token self) as [t|];
            [by rewrite lookup_insert_eq | by rewrite lookup_singleton_ne]).
      + destruct (String.eqb_spec name "X-RateLimit-Precision") as [->|Hp].
        * destruct (reason args) as [r|];
            [rewrite lookup_insert_ne by done|];
            (destruct (token self) as [t|];
              [rewrite lookup_insert_ne by done|]; by rewrite lookup_singleton_eq).
        * destruct (reason args) as [r|];
            [rewrite lookup_insert_ne by done|];
            (destruct (token self) as [t|];
              [rewrite lookup_insert_ne by done|]; by rewrite lookup_singleton_ne). }
  unfold request_headers. simpl in Hown.
  destruct (headers args) as [extra|]; simpl.
  - rewrite lookup_union, Hown.
    destruct (extra !! name), (own_header self args name); reflexivity.
  - exact Hown.
Qed.

(** X2: a response with a status below 400 and a JSON body ends the call:
    the bucket is updated, the deserialized body is returned, and what the
    transport might answer next is never asked for. *)
Theorem success_returns_body x script st hd body :
  status (response x) < 400 ->
  read_headers (response x) = inr hd ->
  content_type hd = "application/json" ->
  json_deserialize self (raw_body (response x)) = inr body ->
  request_loop self route args hdrs future real_hash (x :: script) st
  = (Returned body,
     record [update_of route real_hash hd]
       (answered self route args hdrs future x st)).
Proof.
  intros Hs Hhd Hct Hbody. rewrite request_loop_cons.
  rewrite (interpret_json self route real_hash _ _ _ _ Hhd Hct Hbody).
  unfold classify.
  replace (Z.eqb (status (response x)) 429) with false by (symmetry; lia).
  replace (Z.leb 400 (status (response x))) with false by (symmetry; lia).
  reflexivity.
Qed.

(** X3: a body that the deserializer refuses is fatal whatever the status:
    its exception leaves the call as it is, the bucket limiter is not
    updated, the backoff is not asked and nothing is sent again. *)
Theorem deserializer_error_is_raised x script st hd e :
  read_headers (response x) = inr hd ->
  content_type hd = "application/json" ->
  json_deserialize self (raw_body (response x)) = inl e ->
  request_loop self route args hdrs future real_hash (x :: script) st
  = (Raised e, answered self route args hdrs future x st).
Proof.
  intros Hhd Hct Hbody. rewrite request_loop_cons.
  unfold interpret, read_body, lift, mbind, M_bind, mret, M_ret.
  rewrite Hhd, Hct, Hbody. reflexivity.
Qed.

(** X4: the two headers that have no default.  When the rate-limit headers
    are read, a response without a date raises [KeyError] on "Date", and
    one with a date but without a content type raises it on
    "Content-Type"; in both cases before any update, whatever the status. *)
Theorem missing_header_is_raised x script st limit remaining reset reset_date :
  int_of_str (headers_get (resp_headers (response x)) "X-RateLimit-Limit" "1")
  = Some limit ->
  int_of_str (headers_get (resp_headers (response x)) "X-RateLimit-Remaining" "1")
  = Some remaining ->
  float_of_str (headers_get (resp_headers (response x)) "X-RateLimit-Reset" "0")
  = Some reset ->
  fromtimestamp reset = inr reset_date ->
  (headers_find (resp_headers (response x)) "Date" = None ->
   request_loop self route args hdrs future real_hash (x :: script) st
   = (Raised (KeyError "Date"), answered self route args hdrs future x st))
  /\ (forall date now_date,
        headers_find (resp_headers (response x)) "Date" = Some date ->
        parsedate_to_datetime date = inr now_date ->
        headers_find (resp_headers (response x)) "Content-Type" = None ->
        request_loop self route args hdrs future real_hash (x :: script) st
        = (Raised (KeyError "Content-Type"),
           answered self route args hdrs future x st)).
Proof.
  intros Hl Hr Hf Ht. split.
  - intros Hd. rewrite request_loop_cons.
    unfold interpret, read_headers, headers_getitem, lift, of_option.
    rewrite Hl, Hr, Hf, Hd. simpl. rewrite Ht. reflexivity.
  - intros date now_date Hd Hp Hc. rewrite request_loop_cons.
    unfold interpret, read_headers, headers_getitem, lift, of_option.
    rewrite Hl, Hr, Hf, Hd, Hc. simpl. rewrite Ht. simpl. rewrite Hp.
    reflexivity.
Qed.

End Further.

Section Edges.
Context `{Builtins} `{RateLimits}.
Context (self : HTTPClient) (route : CompiledRoute) (args : RequestArgs)
        (hdrs : gmap string string) (future : Future) (real_hash : string).

(** X6: a rejection that cannot be read.  A 429 whose JSON object has no
    "global" entry raises [KeyError] on it, and one whose "global" is true
    but that has no "retry_after" raises [KeyError] on that; the bucket has
    been updated by then, the global limiter is not throttled and the
    request is not sent again. *)
Theorem unreadable_rejection_is_raised x script st hd m :
  status (response x) = 429 ->
  read_headers (response x) = inr hd ->
  content_type hd = "application/json" ->
  json_deserialize self (raw_body (response x)) = inr (JObject m) ->
  (m !! "global" = None ->
   request_loop self route args hdrs future real_hash (x :: script) st
   = (Raised (KeyError "global"),
      record [update_of route real_hash hd]
        (answered self route args hdrs future x st)))
  /\ (forall g,
        m !! "global" = Some g ->
        Py.truthy g = true ->
        m !! "retry_after" = None ->
        request_loop self route args hdrs future real_hash (x :: script) st
        = (Raised (KeyError "retry_after"),
           record [update_of route real_hash hd]
             (answered self route args hdrs future x st))).
Proof.
  intros Hs Hhd Hct Hbody. split.
  - intros Hg. rewrite request_loop_cons.
    rewrite (interpret_json self route real_hash _ _ _ _ Hhd Hct Hbody).
    unfold classify, lift, mbind, M_bind. rewrite Hs. simpl. rewrite Hg.
    reflexivity.
  - intros g Hg Ht Hr. rewrite request_loop_cons.
    rewrite (interpret_json self route real_hash _ _ _ _ Hhd Hct Hbody).
    rewrite (classify_429 _ _ _ _ _ Hs Hg), Ht, Hr. reflexivity.
Qed.

Lemma error_fields_not_object body :
  is_object body = false -> error_fields body = inl TypeError.
Proof. by destruct body. Qed.

(** X7: an error without an object for body.  On a status from 400 on,
    other than 429, a body that is not a JSON object, be it an array, a
    number or the [None] of a response that is neither JSON nor text, makes
    the lookup of the message raise [TypeError]: no error of the status is
    raised, and for a server error the backoff is not asked. *)
Theorem error_without_object_raises_type_error x script st hd :
  400 <= status (response x) ->
  status (response x) <> 429 ->
  read_headers (response x) = inr hd ->
  (forall body,
      content_type hd = "application/json" ->
      json_deserialize self (raw_body (response x)) = inr body ->
      is_object body = false ->
      request_loop self route args hdrs future real_hash (x :: script) st
      = (Raised TypeError,
         record [update_of route real_hash hd]
           (answered self route args hdrs future x st)))
  /\ (content_type hd <> "application/json" ->
      content_type hd <> "text/plain" ->
      content_type hd <> "text/html" ->
      request_loop self route args hdrs future real_hash (x :: script) st
      = (Raised TypeError,
         record [update_of route real_hash hd]
           (answered self route args hdrs future x st))).
Proof.
  intros Hs Hn Hhd. split.
  - intros body Hct Hbody Hobj. rewrite request_loop_cons.
    rewrite (interpret_json self route real_hash _ _ _ _ Hhd Hct Hbody).
    rewrite classify_error by assumption.
    rewrite (error_fields_not_object _ Hobj). reflexivity.
  - intros H1 H2 H3. rewrite request_loop_cons.
    rewrite (interpret_other self route real_hash _ hd _ Hhd)
      by auto using eqb_ne.
    rewrite classify_error by assumption. reflexivity.
Qed.








Lemma throttles_of_turn s evs :
  turn_calls s evs ->
  (length (List.filter is_throttle evs) <= if Z.eqb s 429 then 1 else 0)%nat.
Proof.
  destruct evs as [|[] [|[] [|]]]; simpl; try done; try lia.
  intros ->. simpl. lia.
Qed.

Lemma filter_throttle_attempt_events contents :
  List.filter is_throttle
    (attempt_events self route args hdrs future contents) = [].
Proof.
  unfold attempt_events. rewrite List.filter_app.
  rewrite filter_none by (by apply seeks_without). reflexivity.
Qed.

Lemma throttles_of_loop script :
  forall st,
  (length (List.filter is_throttle
             (trace (request_loop self route args hdrs future real_hash
                       script st).2))
   <= length (List.filter is_throttle (trace st)) + rejections script)%nat.
Proof.
  induction script as [|x script IH]; intros st.
  - rewrite request_loop_nil. simpl.
    rewrite List.filter_app, filter_throttle_attempt_events, app_nil_r. lia.
  - rewrite request_loop_cons.
    destruct (interpret_turn_calls self route real_hash (response x)
                (answered self route args hdrs future x st))
      as (evs & Ht & Hcalls).
    apply throttles_of_turn in Hcalls.
    assert (Hturn :
      forall st',
        trace st' = trace (answered self route args hdrs future x st) ++ evs ->
        (length (List.filter is_throttle (trace st'))
         <= length (List.filter is_throttle (trace st))
            + (if Z.eqb (status (response x)) 429 then 1 else 0))%nat).
    { intros st' ->. simpl.
      rewrite !List.filter_app, filter_throttle_attempt_events, app_nil_r.
      rewrite length_app. lia. }
    assert (Hrej :
      rejections (x :: script)
      = ((if Z.eqb (status (response x)) 429 then 1 else 0)
         + rejections script)%nat).
    { unfold rejections. simpl.
      by destruct (Z.eqb (status (response x)) 429). }
    rewrite Hrej. clear Hrej.
    set (k := if Z.eqb (status (response x)) 429 then 1%nat else 0%nat) in *.
    destruct (interpret self route real_hash (response x)
                (answered self route args hdrs future x st))
      as [[e|[|body]] st'] eqn:Hi; cbn [snd] in Ht |- *.
    + specialize (Hturn st' Ht). lia.
    + specialize (Hturn st' Ht). specialize (IH st'). lia.
    + specialize (Hturn st' Ht). lia.
Qed.

Lemma sent_from_any_cursor a a' st st' :
  json_body a = json_body a' ->
  query a = query a' ->
  form_body a = form_body a' ->
  content <$> resources st = content <$> resources st' ->
  backoff st = backoff st' ->
  trace st = trace st' ->
  sent self route a hdrs future st = sent self route a' hdrs future st'.
Proof.
  intros Hj Hq Hf Hr Hb Ht. unfold sent, attempt_events.
  rewrite Hr, Hb, Ht, Hj, Hq, Hf. f_equal.
  clear -Hr. revert Hr. generalize (resources st) (resources st').
  intros rs. induction rs as [|r rs IH]; intros [|r' rs'] Heq;
    simpl in Heq; try discriminate; [done|].
  injection Heq as Hc Heq. simpl. unfold seek at 1 3. rewrite Hc.
  f_equal. by apply IH.
Qed.

Lemma loop_from_any_cursor a a' script :
  forall st st',
  json_body a = json_body a' ->
  query a = query a' ->
  form_body a = form_body a' ->
  content <$> resources st = content <$> resources st' ->
  backoff st = backoff st' ->
  trace st = trace st' ->
  request_loop self route a hdrs future real_hash script st
  = request_loop self route a' hdrs future real_hash script st'.
Proof.
  induction script as [|x script IH]; intros st st' Hj Hq Hf Hr Hb Ht;
    cbn [request_loop]; rewrite !send_eq;
    rewrite (sent_from_any_cursor a a' st st') by assumption.
  - reflexivity.
  - destruct ((transport_reads (consumed x);;
               interpret self route real_hash (response x))
                (sent self route a' hdrs future st'))
      as [[e|[|body]] st1]; try reflexivity.
    by apply IH.
Qed.

End Edges.

Section WholeCall.
Context `{Builtins} `{RateLimits}.

(** X10: what may follow a response.  Between a response and the end of its
    turn the executor calls at most the update of the bucket limiter and,
    behind it, at most one of a throttle and a sleep; it throttles the
    global limiter only for a 429, and it sleeps behind an update only for a
    status from 500 on. *)
Theorem calls_after_a_response self route real_hash resp st :
  exists evs,
    trace (interpret self route real_hash resp st).2 = trace st ++ evs
    /\ turn_calls (status resp) evs.
Proof. apply interpret_turn_calls. Qed.

(** X11: the global limiter is throttled for rejections only: in the trace
    of a call there are no more throttles than there were responses with
    status 429. *)
Theorem throttled_only_by_rejections self route args script :
  (length (List.filter is_throttle (trace (_request self route args script).2))
   <= rejections script)%nat.
Proof.
  unfold _request. destruct (bucket_acquire route) as [future real_hash].
  pose proof (throttles_of_loop self route args (request_headers self args)
                future real_hash script
                (mkState (re_seekable_resources args) ExponentialBackOff
                   [RatelimiterAcquire route])) as Hle.
  simpl in Hle. exact Hle.
Qed.

(** X12: where the cursors of the resources stand when [_request] is called
    has no bearing on the call: two calls that differ in nothing but these
    positions give the same result, the same trace and leave the resources
    in the same place. *)
Theorem cursors_at_call_time_are_irrelevant self route script
    headers query form_body json_body reason resources resources' :
  content <$> resources = content <$> resources' ->
  _request self route
    (mkArgs headers query form_body json_body reason resources) script
  = _request self route
      (mkArgs headers query form_body json_body reason resources') script.
Proof.
  intros Hc. unfold _request.
  destruct (bucket_acquire route) as [future real_hash].
  apply loop_from_any_cursor; done.
Qed.
End WholeCall.

(** ** The executor at work *)

Section Examples.
#[local] Existing Instances Demo.builtins Demo.ratelimits.




(** The update comes first for a JSON response, and not at all for a
    text one. *)
Lemma update_before_status_example :
  read_headers (response Demo.ok) = inr (Demo.headers_of "application/json")
  /\ interpret Demo.client Demo.route Demo.real_hash (response Demo.ok)
       Demo.start
     = classify Demo.route (response Demo.ok) Demo.channel_json
         (record [Demo.update "application/json"] Demo.start).
Proof.
  split; [reflexivity|].
  apply (proj1 (rate_limits_updated_unless_text
                  Demo.client Demo.route Demo.real_hash (response Demo.ok)
                  Demo.start (Demo.headers_of "application/json") eq_refl));
    reflexivity.
Defined.

(** C2 fails on a text response: it is answered with a sleep and a second
    request, and the bucket limiter is never told of its headers. *)
Lemma text_response_skips_the_update :
  Demo.run [Demo.ok_in_text]
  = (AwaitingResponse,
     mkState [] 1%nat
       [RatelimiterAcquire Demo.route;
        GlobalAcquire; Gather Demo.future; Demo.request; Sleep 1;
        GlobalAcquire; Gather Demo.future; Demo.request])
  /\ List.filter is_update (trace (Demo.run [Demo.ok_in_text]).2) = [].
Proof. split; reflexivity. Qed.





(** With the three delays of the backoff above, the fourth server error in
    a row is raised. *)
Lemma four_server_errors_are_raised :
  (Demo.run [Demo.internal_error; Demo.internal_error;
             Demo.internal_error; Demo.internal_error]).1
  = Raised (ServerHTTPError "Received a server error response" Demo.route
              (JString EmptyString) 500)
  /\ slept (trace (Demo.run [Demo.internal_error; Demo.internal_error;
                             Demo.internal_error; Demo.internal_error]).2)
     = [1; 2; 4]%Q.
Proof. split; reflexivity. Qed.

(** C4 fails on a server error whose type is neither JSON nor text, such
    as the page of a gateway with a charset: the message is looked up in a
    body that is [None], and the [TypeError] leaves the executor before the
    backoff is asked. *)
Theorem server_error_page_raises_type_error :
  Demo.run [Demo.bad_gateway_page]
  = (Raised TypeError,
     mkState [] 0%nat
       [RatelimiterAcquire Demo.route;
        GlobalAcquire; Gather Demo.future; Demo.request;
        Demo.update "text/html; charset=utf-8"]).
Proof. reflexivity. Qed.

(** C9 fails on a 204 that declares JSON or text: the body set to [None]
    for the status is bound again by the type.  With an empty JSON body the
    deserializer raises; with a JSON body the caller gets that body; with a
    text type the request is sent again. *)
Theorem no_content_depends_on_content_type :
  Demo.run [Demo.no_content_json]
  = (Raised ValueError,
     mkState [] 0%nat
       [RatelimiterAcquire Demo.route;
        GlobalAcquire; Gather Demo.future; Demo.request])
  /\ (Demo.run [Demo.reply 204 "No Content" "application/json"
                  Demo.channel_text]).1
     = Returned Demo.channel_json
  /\ Demo.run [Demo.no_content_text]
     = (AwaitingResponse,
        mkState [] 1%nat
          [RatelimiterAcquire Demo.route;
           GlobalAcquire; Gather Demo.future; Demo.request; Sleep 1;
           GlobalAcquire; Gather Demo.future; Demo.request]).
Proof. repeat split; reflexivity. Qed.


(** An upload of three bytes whose first attempt, read two bytes into the
    attachment, meets a server error: the retry is sent behind a rewind
    and carries the three bytes. *)
Lemma upload_retry_example :
  trace (Demo.upload [Demo.internal_error; Demo.ok]).2
  = [RatelimiterAcquire Demo.route;
     Seek 0 0; GlobalAcquire; Gather Demo.future; Demo.upload_request;
     Demo.update "application/json"; Sleep 1;
     Seek 0 0; GlobalAcquire; Gather Demo.future]
    ++ Demo.upload_request :: [Demo.update "application/json"]
  /\ is_transport_request Demo.upload_request = true
  /\ Demo.upload_request
     = TransportRequest (method Demo.route)
         (create_url Demo.route (base_url Demo.client))
         (request_headers Demo.client Demo.upload_args)
         (json_body Demo.upload_args) (query Demo.upload_args)
         (form_body Demo.upload_args)
         (content <$> re_seekable_resources Demo.upload_args)
  /\ exists pre',
       [RatelimiterAcquire Demo.route;
        Seek 0 0; GlobalAcquire; Gather Demo.future; Demo.upload_request;
        Demo.update "application/json"; Sleep 1;
        Seek 0 0; GlobalAcquire; Gather Demo.future]
       = pre'
         ++ imap (fun i _ => Seek i 0) (re_seekable_resources Demo.upload_args)
         ++ [GlobalAcquire; Gather (bucket_acquire Demo.route).1].
Proof.
  assert (Ht : trace (Demo.upload [Demo.internal_error; Demo.ok]).2
               = [RatelimiterAcquire Demo.route;
                  Seek 0 0; GlobalAcquire; Gather Demo.future;
                  Demo.upload_request;
                  Demo.update "application/json"; Sleep 1;
                  Seek 0 0; GlobalAcquire; Gather Demo.future]
                 ++ Demo.upload_request :: [Demo.update "application/json"])
    by reflexivity.
  split; [exact Ht|]. split; [reflexivity|].
  exact (resources_rewound_before_every_send
           Demo.client Demo.route Demo.upload_args
           [Demo.internal_error; Demo.ok] _ _ _ Ht eq_refl).
Defined.
End Examples.

(** ** Further examples *)

Section FurtherExamples.
#[local] Existing Instances Demo.builtins Demo.ratelimits.

(** A redirect with a JSON body is returned like any success, and the
    server error behind it is never met. *)
Lemma redirect_is_returned :
  status (response Cases.moved) < 400
  /\ Demo.loop [Cases.moved; Demo.internal_error] Demo.start
     = (Returned Demo.channel_json,
        record [Demo.update "application/json"]
          (Demo.after Cases.moved Demo.start)).
Proof.
  split; [reflexivity|].
  apply (success_returns_body
           Demo.client Demo.route Demo.no_args Demo.hdrs Demo.future
           Demo.real_hash Cases.moved [Demo.internal_error] Demo.start
           (Demo.headers_of "application/json") Demo.channel_json);
    reflexivity.
Defined.

(** A body that is not JSON under a JSON content type: the [ValueError]
    of the deserializer is what the caller gets. *)
Lemma garbled_body_example :
  json_deserialize Demo.client (raw_body (response Cases.garbled))
  = inl ValueError
  /\ Demo.loop [Cases.garbled; Demo.ok] Demo.start
     = (Raised ValueError, Demo.after Cases.garbled Demo.start).
Proof.
  split; [reflexivity|].
  apply (deserializer_error_is_raised
           Demo.client Demo.route Demo.no_args Demo.hdrs Demo.future
           Demo.real_hash Cases.garbled [Demo.ok] Demo.start
           (Demo.headers_of "application/json") ValueError);
    reflexivity.
Defined.

(** A response without a date, and one whose date is there, in lower
    case, but that has no content type. *)
Lemma missing_header_example :
  headers_find (resp_headers (response Cases.undated)) "Date" = None
  /\ Demo.loop [Cases.undated] Demo.start
     = (Raised (KeyError "Date"), Demo.after Cases.undated Demo.start)
  /\ headers_find (resp_headers (response Cases.untyped)) "Date"
     = Some "Thu, 01 Jan 1970 00:00:10 GMT"
  /\ headers_find (resp_headers (response Cases.untyped)) "Content-Type" = None
  /\ Demo.loop [Cases.untyped] Demo.start
     = (Raised (KeyError "Content-Type"), Demo.after Cases.untyped Demo.start).
Proof.
  split; [reflexivity|]. split.
  - apply (proj1 (missing_header_is_raised
                    Demo.client Demo.route Demo.no_args Demo.hdrs Demo.future
                    Demo.real_hash Cases.undated [] Demo.start 1 1 0%Q 0%Q
                    eq_refl eq_refl eq_refl eq_refl)).
    reflexivity.
  - split; [reflexivity|]. split; [reflexivity|].
    apply (proj2 (missing_header_is_raised
                    Demo.client Demo.route Demo.no_args Demo.hdrs Demo.future
                    Demo.real_hash Cases.untyped [] Demo.start 1 1 0%Q 0%Q
                    eq_refl eq_refl eq_refl eq_refl)
             "Thu, 01 Jan 1970 00:00:10 GMT" 10%Q);
      reflexivity.
Defined.


(** A 429 whose body is [{"id": 42}], and one whose body is
    [{"global": true}]. *)
Lemma unreadable_rejection_example :
  status (response Cases.limited_without_scope) = 429
  /\ Demo.loop [Cases.limited_without_scope; Demo.ok] Demo.start
     = (Raised (KeyError "global"),
        record [Demo.update "application/json"]
          (Demo.after Cases.limited_without_scope Demo.start))
  /\ request_loop Cases.client Demo.route Demo.no_args Demo.hdrs Demo.future
       Demo.real_hash [Cases.limited_without_delay; Demo.ok] Demo.start
     = (Raised (KeyError "retry_after"),
        record [Demo.update "application/json"]
          (answered Cases.client Demo.route Demo.no_args Demo.hdrs Demo.future
             Cases.limited_without_delay Demo.start)).
Proof.
  split; [reflexivity|]. split.
  - apply (proj1 (unreadable_rejection_is_raised
                    Demo.client Demo.route Demo.no_args Demo.hdrs Demo.future
                    Demo.real_hash Cases.limited_without_scope [Demo.ok]
                    Demo.start (Demo.headers_of "application/json")
                    (<["id" := JInt 42]> ∅)
                    eq_refl eq_refl eq_refl eq_refl)).
    reflexivity.
  - apply (proj2 (unreadable_rejection_is_raised
                    Cases.client Demo.route Demo.no_args Demo.hdrs Demo.future
                    Demo.real_hash Cases.limited_without_delay [Demo.ok]
                    Demo.start (Demo.headers_of "application/json")
                    (<["global" := JBool true]> ∅)
                    eq_refl eq_refl eq_refl eq_refl)
             (JBool true));
      reflexivity.
Defined.

(** A 400 whose body is the array [[1, 2]], and a 404 that is an image. *)
Lemma error_without_object_example :
  request_loop Cases.client Demo.route Demo.no_args Demo.hdrs Demo.future
    Demo.real_hash [Cases.bad_request_list] Demo.start
  = (Raised TypeError,
     record [Demo.update "application/json"]
       (answered Cases.client Demo.route Demo.no_args Demo.hdrs Demo.future
          Cases.bad_request_list Demo.start))
  /\ Demo.loop [Cases.not_found_image] Demo.start
     = (Raised TypeError,
        record [Demo.update "image/png"]
          (Demo.after Cases.not_found_image Demo.start)).
Proof.
  split.
  - apply (proj1 (error_without_object_raises_type_error
                    Cases.client Demo.route Demo.no_args Demo.hdrs Demo.future
                    Demo.real_hash Cases.bad_request_list [] Demo.start
                    (Demo.headers_of "application/json")
                    ltac:(discriminate) ltac:(discriminate) eq_refl)
             Cases.pair_json);
      reflexivity.
  - apply (proj2 (error_without_object_raises_type_error
                    Demo.client Demo.route Demo.no_args Demo.hdrs Demo.future
                    Demo.real_hash Cases.not_found_image [] Demo.start
                    (Demo.headers_of "image/png")
                    ltac:(discriminate) ltac:(discriminate) eq_refl));
      discriminate.
Defined.







(** An attachment read up to its second byte is sent from its first, as
    one that has not been read. *)
Lemma cursor_example :
  content <$> [Cases.attachment_in_use] = content <$> [Demo.attachment]
  /\ _request Demo.client Demo.route
       (mkArgs None None (Some [("file0", "hi.txt")]) None None
          [Cases.attachment_in_use])
       [Demo.internal_error; Demo.ok]
     = Demo.upload [Demo.internal_error; Demo.ok].
Proof.
  split; [reflexivity|].
  apply (cursors_at_call_time_are_irrelevant
           Demo.client Demo.route [Demo.internal_error; Demo.ok]
           None None (Some [("file0", "hi.txt")]) None None
           [Cases.attachment_in_use] [Demo.attachment]).
  reflexivity.
Defined.

End FurtherExamples.
